(** * NebulaMind source ingestion: a shallow embedding in Rocq

    This development models the source-ingestion path of NebulaMind:
    - [fetchWebsiteContent] and [processFileWithGemini] from the AI service
      layer (services/ai),
    - [handleAddSource], the Add Source button and the [displayedSources]
      filter of the sources tab,
    - the source-title edit handler of [SourceCard],
    - [addSource], [deleteSource], [editSource] and [saveTitle] of
      [NotebookView],
    - the consumers of a notebook: card navigation of [FlashcardsTab],
      navigation and grading of [QuizTab], [sendMessage] of [ChatTab], and
      [postJson] of the AI service layer.

    Strings are modelled as Rocq [string]s, i.e. sequences of 8-bit
    characters: a JavaScript string whose UTF-16 code units are all below
    256 (Latin-1), one character per code unit.  The JavaScript string
    primitives ([startsWith], [includes], [trim]) are written out over
    them and are exact on that range.  The source filter, whose
    [toLowerCase] is not a per-character map beyond it, is written over
    UTF-16 code units ([ustring]).
    Browser capabilities (network fetch, file decoding, the clock, UUIDs)
    are inputs of the model: a result of [None] stands for a call that
    throws. *)

From Stdlib Require Import String Ascii List Bool Arith ZArith Lia.
From Stdlib Require Import DecimalString DecimalNat.
Import ListNotations.
Open Scope string_scope.
Open Scope bool_scope.

(** ** JavaScript string primitives *)
Module JS.

(** [s.startsWith(p)] *)
Fixpoint startsWith (s p : string) {struct p} : bool :=
  match p, s with
  | EmptyString, _ => true
  | String c p', String d s' => Ascii.eqb c d && startsWith s' p'
  | String _ _, EmptyString => false
  end.

(** [s.includes(p)]: [p] occurs at some position of [s]. *)
Fixpoint includes (s p : string) : bool :=
  startsWith s p ||
  match s with
  | EmptyString => false
  | String _ s' => includes s' p
  end.

(** White space removed by [String.prototype.trim], below 256: tab, LF,
    VT, FF, CR, space and no-break space (U+00A0). *)
Definition is_ws (c : ascii) : bool :=
  let n := nat_of_ascii c in
  (((9 <=? n) && (n <=? 13)) || (n =? 32) || (n =? 160))%nat.

Fixpoint trimStart (s : string) : string :=
  match s with
  | EmptyString => EmptyString
  | String c s' => if is_ws c then trimStart s' else s
  end.

Fixpoint trimEnd (s : string) : string :=
  match s with
  | EmptyString => EmptyString
  | String c s' =>
      let r := trimEnd s' in
      match r with
      | EmptyString => if is_ws c then EmptyString else String c EmptyString
      | _ => String c r
      end
  end.

(** [s.trim()] *)
Definition trim (s : string) : string := trimEnd (trimStart s).

(** The case folding of a regular expression with the [i] flag, used
    against a pattern written in ASCII: ASCII [A-Z] to [a-z].  No other
    character below 256 folds onto an ASCII character. *)
Definition lower_char (c : ascii) : ascii :=
  let n := nat_of_ascii c in
  if ((65 <=? n) && (n <=? 90))%nat then ascii_of_nat (n + 32)%nat else c.

(** JavaScript truthiness of a string: [""] is the only falsy string. *)
Definition truthy (s : string) : bool :=
  match s with EmptyString => false | _ => true end.

(** [a || b] on strings: [a] if it is truthy, [b] otherwise. *)
Definition or_else (a b : string) : string := if truthy a then a else b.

End JS.

(** ** JavaScript strings as UTF-16 code units

    A JavaScript string is a sequence of UTF-16 code units.  [ucodes]
    reads a string of the model above (code units below 256) as one. *)
Definition ustring := list Z.

Definition ucodes (s : string) : ustring :=
  map (fun c => Z.of_nat (nat_of_ascii c)) (list_ascii_of_string s).

(** All code units below 256. *)
Definition latin1 (s : ustring) : bool :=
  forallb (fun c => (0 <=? c)%Z && (c <? 256)%Z) s.

Module U.
Local Open Scope Z_scope.

(** [s.startsWith(p)] *)
Fixpoint startsWith (s p : ustring) {struct p} : bool :=
  match p, s with
  | [], _ => true
  | c :: p', d :: s' => Z.eqb c d && startsWith s' p'
  | _ :: _, [] => false
  end.

(** [s.includes(p)] *)
Fixpoint includes (s p : ustring) : bool :=
  startsWith s p ||
  match s with
  | [] => false
  | _ :: s' => includes s' p
  end.

(** The code points [trim] removes: ECMAScript's WhiteSpace (tab, VT, FF,
    U+FEFF and the space separators of Unicode: U+0020, U+00A0, U+1680,
    U+2000-U+200A, U+202F, U+205F, U+3000) and LineTerminator (LF, CR,
    U+2028, U+2029). *)
Definition is_ws (c : Z) : bool :=
  ((9 <=? c) && (c <=? 13)) || (c =? 32) || (c =? 160) || (c =? 5760) ||
  ((8192 <=? c) && (c <=? 8202)) || (c =? 8232) || (c =? 8233) ||
  (c =? 8239) || (c =? 8287) || (c =? 12288) || (c =? 65279).

Fixpoint trimStart (s : ustring) : ustring :=
  match s with
  | [] => []
  | c :: s' => if is_ws c then trimStart s' else s
  end.

Fixpoint trimEnd (s : ustring) : ustring :=
  match s with
  | [] => []
  | c :: s' =>
      let r := trimEnd s' in
      match r with
      | [] => if is_ws c then [] else [c]
      | _ => c :: r
      end
  end.

(** [s.trim()] *)
Definition trim (s : ustring) : ustring := trimEnd (trimStart s).

(** Truthiness: [""] is the only falsy string. *)
Definition truthy (s : ustring) : bool :=
  match s with [] => false | _ => true end.

(** [toLowerCase] follows Unicode's default case conversion.  It is written
    out for the code units U+0000-U+00FF (Basic Latin, Latin-1 Supplement)
    and U+0370-U+03FF (Greek and Coptic), on which it is exact; other code
    units are left as they are.  On these blocks the full lowercase mapping
    is the simple one (UnicodeData.txt), except for the capital sigma
    U+03A3, which becomes the final sigma U+03C2 in the Final_Sigma context
    (SpecialCasing.txt) and U+03C3 elsewhere. *)
Definition lower_unit (c : Z) : Z :=
  if ((65 <=? c) && (c <=? 90)) ||
     ((192 <=? c) && (c <=? 222) && negb (c =? 215)) ||
     ((913 <=? c) && (c <=? 939) && negb (c =? 930)) then c + 32
  else if (c =? 880) || (c =? 882) || (c =? 886) || (c =? 1015) ||
          (c =? 1018) || ((984 <=? c) && (c <=? 1006) && Z.even c) then c + 1
  else if c =? 895 then 1011
  else if c =? 902 then 940
  else if (904 <=? c) && (c <=? 906) then c + 37
  else if c =? 908 then 972
  else if (c =? 910) || (c =? 911) then c + 63
  else if c =? 975 then 983
  else if c =? 1012 then 952
  else if c =? 1017 then 1010
  else if (1021 <=? c) && (c <=? 1023) then c - 130
  else c.

(** Unicode's [Cased] property on the two blocks. *)
Definition cased (c : Z) : bool :=
  ((65 <=? c) && (c <=? 90)) || ((97 <=? c) && (c <=? 122)) ||
  (c =? 170) || (c =? 181) || (c =? 186) ||
  ((192 <=? c) && (c <=? 255) && negb (c =? 215) && negb (c =? 247)) ||
  ((880 <=? c) && (c <=? 883)) || (c =? 886) || (c =? 887) ||
  ((890 <=? c) && (c <=? 893)) || (c =? 895) || (c =? 902) ||
  ((904 <=? c) && (c <=? 906)) || (c =? 908) ||
  ((910 <=? c) && (c <=? 1013) && negb (c =? 930)) ||
  ((1015 <=? c) && (c <=? 1023)).

(** Unicode's [Case_Ignorable] property on the two blocks. *)
Definition case_ignorable (c : Z) : bool :=
  (c =? 39) || (c =? 46) || (c =? 58) || (c =? 94) || (c =? 96) ||
  (c =? 168) || (c =? 173) || (c =? 175) || (c =? 180) || (c =? 183) ||
  (c =? 184) || (c =? 884) || (c =? 885) || (c =? 890) || (c =? 900) ||
  (c =? 901) || (c =? 903).

(** A cased letter followed by case-ignorable characters only, read from
    the nearest character outwards. *)
Fixpoint cased_run (s : ustring) : bool :=
  match s with
  | [] => false
  | c :: s' => cased c || (case_ignorable c && cased_run s')
  end.

(** [before] holds the characters already read, nearest first. *)
Fixpoint lowerFrom (before s : ustring) : ustring :=
  match s with
  | [] => []
  | c :: s' =>
      (if c =? 931 then
         if cased_run before && negb (cased_run s') then 962 else 963
       else lower_unit c) :: lowerFrom (c :: before) s'
  end.

(** [s.toLowerCase()] *)
Definition toLowerCase (s : ustring) : ustring := lowerFrom [] s.

End U.

(** ** Global regular-expression replacement

    [s.replace(/re/g, rep)] for a regular expression that never matches the
    empty string.  [m s] is [Some rest] when the expression matches at the
    start of [s], [rest] being what follows the (leftmost, as chosen by the
    expression's quantifiers) match.  Matches are replaced left to right and
    do not overlap.  The fuel [length s + 1] is always enough, since each
    step consumes at least one character. *)
Module Regex.

Fixpoint replace_fuel (fuel : nat) (m : string -> option string)
    (rep : string) (s : string) : string :=
  match fuel with
  | O => s
  | S fuel' =>
      match s with
      | EmptyString => EmptyString
      | String c s' =>
          match m s with
          | Some rest => rep ++ replace_fuel fuel' m rep rest
          | None => String c (replace_fuel fuel' m rep s')
          end
      end
  end.

Definition replace_global (m : string -> option string) (rep s : string) :
    string :=
  replace_fuel (S (String.length s)) m rep s.

(** Case-insensitive literal prefix ([/i] flag): returns what follows. *)
Fixpoint match_ci (p s : string) : option string :=
  match p, s with
  | EmptyString, _ => Some s
  | String c p', String d s' =>
      if Ascii.eqb (JS.lower_char c) (JS.lower_char d) then match_ci p' s'
      else None
  | String _ _, EmptyString => None
  end.

(** [[\s\S]*?CLOSE]: the shortest run of any characters followed by the
    literal [close]; returns what follows the first occurrence of [close]. *)
Fixpoint lazy_until_ci (close s : string) : option string :=
  match match_ci close s with
  | Some rest => Some rest
  | None =>
      match s with
      | EmptyString => None
      | String _ s' => lazy_until_ci close s'
      end
  end.

(** [/<script[\s\S]*?<\/script>/gi] and the [style] variant. *)
Definition block_re (tag : string) (s : string) : option string :=
  match match_ci ("<" ++ tag) s with
  | Some rest => lazy_until_ci ("</" ++ tag ++ ">") rest
  | None => None
  end.

(** [[^>]*>]: returns what follows the first [>]. *)
Fixpoint upto_gt (s : string) : option string :=
  match s with
  | EmptyString => None
  | String c s' => if Ascii.eqb c ">"%char then Some s' else upto_gt s'
  end.

(** [/<[^>]+>/g] *)
Definition tag_re (s : string) : option string :=
  match s with
  | String "<"%char (String c s') =>
      if Ascii.eqb c ">"%char then None else upto_gt s'
  | _ => None
  end.

End Regex.

(** ** services/ai: [fetchWebsiteContent]

    [page] is the outcome of [await fetch(url)] followed by
    [await res.text()]: [Some text] on success, [None] when either throws. *)
Definition strip_markup (text : string) : string :=
  Regex.replace_global Regex.tag_re " "
    (Regex.replace_global (Regex.block_re "style") ""
      (Regex.replace_global (Regex.block_re "script") "" text)).

Definition fetchWebsiteContent (url : string) (page : option string) : string :=
  match page with
  | Some text =>
      let plain := strip_markup text in
      JS.or_else (JS.trim plain) ("Retrieved content from " ++ url)
  | None => "Could not fetch content from " ++ url ++ "."
  end.

(** ** services/ai: [processFileWithGemini] *)
Record File := mkFile {
  file_name : string;
  file_type : string;      (** [file.type], the declared MIME type *)
  file_size : nat;
  file_text : option string (** outcome of [await file.text()] *)
}.

Definition processFileWithGemini (file : File) (mimeType : string) : string :=
  if JS.startsWith mimeType "text/" then
    match file_text file with
    | Some text => text
    | None => "Could not process file " ++ file_name file ++ "."
    end
  else
    "Uploaded file " ++ file_name file ++ " of type " ++ mimeType ++
    " has been received. Text extraction requires server‑side processing.".

(** ** Data model (types: [Source], [Notebook]) *)

(** [metadata]: [{}], [{ originalUrl }] or [{ filename, size }], the three
    shapes [handleAddSource] builds. *)
Inductive Metadata :=
| MetaEmpty
| MetaUrl (originalUrl : string)
| MetaFile (filename : string) (size : nat).

Record Source := mkSource {
  src_id : string;
  src_type : string;        (** [Source['type']], a string literal type *)
  src_title : string;
  src_content : string;
  src_createdAt : nat;
  src_metadata : Metadata
}.

Record Notebook := mkNotebook {
  nb_id : string;
  nb_title : string;
  nb_sources : list Source;
  nb_updatedAt : nat
}.

(** ** SourcesTab: state of the add-source modal *)
Inductive Modal := TextModal | WebsiteModal | YoutubeModal | FileModal.

Inductive FileType := PdfFile | AudioFile | ImageFile.

Definition fileTypeName (ft : FileType) : string :=
  match ft with
  | PdfFile => "pdf"
  | AudioFile => "audio"
  | ImageFile => "image"
  end.

Record ModalState := mkModalState {
  activeModal : option Modal;
  fileType : option FileType;
  inputValue : string;
  titleValue : string;
  selectedFile : option File
}.

(** What the browser answers during one call of [handleAddSource]. *)
Record Env := mkEnv {
  env_page : option string;            (** website fetch, [None] = throws *)
  env_oembed : option (option string); (** noembed lookup: [None] = throws,
                                           [Some t] = [json.title] *)
  env_time : string;                   (** [new Date().toLocaleTimeString()] *)
  env_uuid : string;                   (** [crypto.randomUUID()] *)
  env_now : nat                        (** [Date.now()] *)
}.

Definition nl : string := String (ascii_of_nat 10) EmptyString.

Definition youtubeContent (url title : string) : string :=
  "[YouTube Video Source]" ++ nl ++ "URL: " ++ url ++ nl ++ "Title: " ++
  title ++ nl ++ nl ++
  "(Note: Video transcript ingestion requires backend API. Treat this source as context for the video's existence.)".

(** The dispatch on [activeModal]: either a thrown error message or the
    values of [content], [type], [finalTitle] and [metadata] after it. *)
Definition dispatch (st : ModalState) (env : Env) :
    string + (string * string * string * Metadata) :=
  let finalTitle := titleValue st in
  let input := inputValue st in
  match activeModal st with
  | Some TextModal =>
      inr (input, "copiedText",
           JS.or_else finalTitle ("Pasted Text " ++ env_time env), MetaEmpty)
  | Some WebsiteModal =>
      if negb (JS.startsWith input "http") then inl "Invalid URL"
      else inr (fetchWebsiteContent input (env_page env), "website",
                JS.or_else finalTitle input, MetaUrl input)
  | Some YoutubeModal =>
      if negb (JS.includes input "youtube.com") &&
         negb (JS.includes input "youtu.be")
      then inl "Invalid YouTube URL"
      else
        let t1 := match env_oembed env with
                  | Some (Some t) => if JS.truthy t then t else finalTitle
                  | _ => finalTitle
                  end in
        let t2 := JS.or_else t1 "YouTube Video" in
        inr (youtubeContent input t2, "youtube", t2, MetaUrl input)
  | Some FileModal =>
      match selectedFile st, fileType st with
      | Some f, Some ft =>
          inr (processFileWithGemini f (file_type f), fileTypeName ft,
               JS.or_else finalTitle (file_name f),
               MetaFile (file_name f) (file_size f))
      | _, _ => inr ("", "copiedText", finalTitle, MetaEmpty)
      end
  | None => inr ("", "copiedText", finalTitle, MetaEmpty)
  end.

(** [handleAddSource]: [inl msg] is the message passed to [setError]
    ([onAddSource] is not called); [inr s] is the source passed to
    [onAddSource]. *)
Definition handleAddSource (st : ModalState) (env : Env) : string + Source :=
  match dispatch st env with
  | inl msg => inl msg
  | inr (content, type, finalTitle, metadata) =>
      if negb (JS.truthy content) then inl "No content could be extracted."
      else inr (mkSource (env_uuid env) type finalTitle content
                         (env_now env) metadata)
  end.

(** ** NotebookView: notebook mutations ([now] is [Date.now()]) *)
Definition addSource (nb : Notebook) (source : Source) (now : nat) : Notebook :=
  mkNotebook (nb_id nb) (nb_title nb) (nb_sources nb ++ [source]) now.

Definition deleteSource (nb : Notebook) (id : string) (now : nat) : Notebook :=
  mkNotebook (nb_id nb) (nb_title nb)
    (filter (fun s => negb (String.eqb (src_id s) id)) (nb_sources nb)) now.

Definition editSource (nb : Notebook) (updatedSource : Source) (now : nat) :
    Notebook :=
  mkNotebook (nb_id nb) (nb_title nb)
    (map (fun s => if String.eqb (src_id s) (src_id updatedSource)
                   then updatedSource else s) (nb_sources nb)) now.

Definition saveTitle (nb : Notebook) (editedTitle : string) (now : nat) :
    Notebook :=
  let title := JS.trim editedTitle in
  if JS.truthy title && negb (String.eqb title (nb_title nb))
  then mkNotebook (nb_id nb) title (nb_sources nb) now
  else nb.

(** The add flow end to end: [handleAddSource] then, on success,
    [onAddSource] = [addSource]. *)
Definition submitSource (nb : Notebook) (st : ModalState) (env : Env)
    (now : nat) : Notebook :=
  match handleAddSource st env with
  | inl _ => nb
  | inr s => addSource nb s now
  end.

(** ** SourcesTab: the Add Source button

    The form of the modal together with [isProcessing] and [error]. *)
Record SourcesUI := mkSourcesUI {
  ui_form : ModalState;
  isProcessing : bool;
  ui_error : option string
}.

(** The state [resetModal] leaves: no modal, empty form, no error. *)
Definition modalClosed : SourcesUI :=
  mkSourcesUI (mkModalState None None "" "" None) false None.

(** [disabled={isProcessing || (!inputValue && !selectedFile)}] *)
Definition addDisabled (u : SourcesUI) : bool :=
  isProcessing u ||
  (negb (JS.truthy (inputValue (ui_form u))) &&
   match selectedFile (ui_form u) with Some _ => false | None => true end).

(** A click on Add Source.  A disabled button ignores it.  Otherwise
    [handleAddSource] runs: on success [onAddSource] (= [addSource]) and
    [resetModal]; on failure [setError(err.message || 'Failed to add
    source.')]; [isProcessing] is false at the end ([finally]). *)
Definition clickAddSource (u : SourcesUI) (env : Env) (nb : Notebook)
    (now : nat) : SourcesUI * Notebook :=
  if addDisabled u then (u, nb)
  else
    match handleAddSource (ui_form u) env with
    | inl msg =>
        (mkSourcesUI (ui_form u) false
           (Some (JS.or_else msg "Failed to add source.")), nb)
    | inr s => (modalClosed, addSource nb s now)
    end.

(** ** SourceCard: the edit-title button

    [newTitle] is the result of [prompt(...)]: [None] when cancelled.
    Returns the updated source given to [onEditSource], if any. *)
Definition editTitleClick (source : Source) (newTitle : option string) :
    option Source :=
  match newTitle with
  | Some t =>
      if JS.truthy t && JS.truthy (JS.trim t) &&
         negb (String.eqb t (src_title source))
      then Some (mkSource (src_id source) (src_type source) (JS.trim t)
                  (src_content source) (src_createdAt source)
                  (src_metadata source))
      else None
  | None => None
  end.

(** Editing a source title from its card: [onEditSource] = [editSource]. *)
Definition editSourceTitle (nb : Notebook) (source : Source)
    (newTitle : option string) (now : nat) : Notebook :=
  match editTitleClick source newTitle with
  | Some updated => editSource nb updated now
  | None => nb
  end.

(** ** SourcesTab: [displayedSources]

    Written over UTF-16 code units, for any type of sources with a [title]
    and a [content]; the notebook's sources are read through
    [srcTitle16] and [srcContent16]. *)
Section Filter.
Context {S : Type} (title content : S -> ustring).

Definition matchesQuery (searchQuery : ustring) (s : S) : bool :=
  if negb (U.truthy (U.trim searchQuery)) then true
  else
    let q := U.toLowerCase searchQuery in
    U.includes (U.toLowerCase (title s)) q ||
    U.includes (U.toLowerCase (content s)) q.

Definition displayedSources (sources : list S) (searchQuery : ustring) :
    list S :=
  filter (matchesQuery searchQuery) sources.

End Filter.

Definition srcTitle16 (s : Source) : ustring := ucodes (src_title s).
Definition srcContent16 (s : Source) : ustring := ucodes (src_content s).

(** ** Error classes of the spec's taxonomy

    The code throws three messages; the spec names the classes
    [InvalidInput], [MissingInput] and [EmptyContent].  No message of the
    code belongs to [MissingInput]. *)
Inductive ErrorClass := InvalidInput | MissingInput | EmptyContent | OtherError.

Definition error_class (msg : string) : ErrorClass :=
  if String.eqb msg "Invalid URL" || String.eqb msg "Invalid YouTube URL"
  then InvalidInput
  else if String.eqb msg "No content could be extracted." then EmptyContent
  else OtherError.

(** The closed set of source types the spec lists. *)
Definition spec_source_types : list string :=
  ["pastedText"; "website"; "youtube"; "pdf"; "audio"; "image"].

(** The source types [handleAddSource] assigns. *)
Definition code_source_types : list string :=
  ["copiedText"; "website"; "youtube"; "pdf"; "audio"; "image"].


(** ** FlashcardsTab: moving through the deck

    [len] is [flashcards.length]; JavaScript's [%] is the truncated
    remainder [Z.rem]. *)
Record FlashState := mkFlash {
  fc_current : Z;
  fc_showAnswer : bool
}.

Definition nextCard (len : Z) (st : FlashState) : FlashState :=
  if (len >? 0)%Z then mkFlash (Z.rem (fc_current st + 1) len) false else st.

Definition prevCard (len : Z) (st : FlashState) : FlashState :=
  if (len >? 0)%Z then mkFlash (Z.rem (fc_current st - 1 + len) len) false
  else st.

(** ** QuizTab *)
Record QuizNav := mkQuizNav {
  qn_currentIndex : Z;
  qn_showResults : bool
}.

(** [nextQuestion], [len] being [questions.length]. *)
Definition nextQuestion (len : Z) (st : QuizNav) : QuizNav :=
  if (qn_currentIndex st <? len - 1)%Z
  then mkQuizNav (qn_currentIndex st + 1) (qn_showResults st)
  else mkQuizNav (qn_currentIndex st) true.

(** The JavaScript values the quiz compares: [undefined], integral numbers
    and strings. *)
Inductive JSVal := JUndef | JNum (n : Z) | JStr (s : string).

(** [===] on these values. *)
Definition strictEq (a b : JSVal) : bool :=
  match a, b with
  | JUndef, JUndef => true
  | JNum x, JNum y => Z.eqb x y
  | JStr x, JStr y => String.eqb x y
  | _, _ => false
  end.

Record QuizQuestion := mkQuizQuestion {
  q_id : string;
  q_prompt : string;
  q_options : option (list string);
  q_correctIndex : option Z;   (** [Some] when [typeof correctIndex === 'number'] *)
  q_answer : option string
}.

(** [arr[i]] on an array of strings. *)
Definition indexArray (arr : list string) (i : Z) : JSVal :=
  if (0 <=? i)%Z then
    match nth_error arr (Z.to_nat i) with Some x => JStr x | None => JUndef end
  else JUndef.

(** [correct] in the results view. *)
Definition correctAnswer (q : QuizQuestion) : JSVal :=
  match q_options q, q_correctIndex q with
  | Some opts, Some i => indexArray opts i
  | _, _ => match q_answer q with Some a => JStr a | None => JUndef end
  end.

(** The [answers] record, keyed by question id. *)
Definition Answers := list (string * JSVal).

(** [answers[questionId]] *)
Fixpoint lookupAnswer (answers : Answers) (questionId : string) : JSVal :=
  match answers with
  | [] => JUndef
  | (k, v) :: rest => if String.eqb k questionId then v else lookupAnswer rest questionId
  end.

(** [recordAnswer]: [{ ...prev, [questionId]: value }]. *)
Definition recordAnswer (prev : Answers) (questionId : string) (value : JSVal) :
    Answers :=
  (questionId, value) :: filter (fun kv => negb (String.eqb (fst kv) questionId)) prev.

(** [isCorrect] in the results view. *)
Definition isCorrect (answers : Answers) (q : QuizQuestion) : bool :=
  strictEq (lookupAnswer answers (q_id q)) (correctAnswer q).

(** ** Number to string ([n.toString()] on a natural number) *)
Definition numToString (n : nat) : string := NilEmpty.string_of_uint (Nat.to_uint n).

(** ** ChatTab: [sendMessage] *)
Inductive Role := RoleUser | RoleModel.

Record ChatMessage := mkChatMessage {
  msg_id : string;
  msg_role : Role;
  msg_text : string;
  msg_citations : option (list string)
}.

Record ChatState := mkChat {
  messages : list ChatMessage;
  chat_input : string;
  chat_loading : bool;
  learningGuide : bool
}.

Definition learningGuidePrefix : string :=
  "You are a patient learning guide. Break down your explanations into simple steps, ask clarifying questions when appropriate, and encourage active engagement. ".

(** [now1] and [now2] are the two readings of [Date.now()]; [answer] is
    the outcome of [generateAnswer]: [inl msg] when it throws an error with
    message [msg], [inr (text, citations)] otherwise.  The result is the
    state after the call, the prompt sent to [generateAnswer] (if any) and
    the text passed to [alert] (if any). *)
Definition sendMessage (st : ChatState) (now1 now2 : nat)
    (answer : string + (string * option (list string))) :
    ChatState * option string * option string :=
  let prompt := JS.trim (chat_input st) in
  if negb (JS.truthy prompt) || chat_loading st then (st, None, None)
  else
    let userMsg := mkChatMessage (numToString now1) RoleUser prompt None in
    let finalPrompt :=
      if learningGuide st then learningGuidePrefix ++ prompt else prompt in
    match answer with
    | inr (text, citations) =>
        let modelMsg := mkChatMessage (numToString (now2 + 1)) RoleModel text citations in
        (mkChat (messages st ++ [userMsg; modelMsg]) "" false (learningGuide st),
         Some finalPrompt, None)
    | inl msg =>
        (mkChat (messages st ++ [userMsg]) "" false (learningGuide st),
         Some finalPrompt, Some (JS.or_else msg "Failed to generate answer"))
    end.

(** The user types [input] ([setInput]) and sends it. *)
Definition typeAndSend (st : ChatState) (input : string) (now1 now2 : nat)
    (answer : string + (string * option (list string))) : ChatState :=
  fst (fst (sendMessage (mkChat (messages st) input (chat_loading st)
                                (learningGuide st)) now1 now2 answer)).

(** One turn: the text typed, the two clock readings and the answer. *)
Definition Turn : Type :=
  (string * nat * nat * (string + (string * option (list string))))%type.

Fixpoint converse (st : ChatState) (turns : list Turn) : ChatState :=
  match turns with
  | [] => st
  | (input, t1, t2, answer) :: rest =>
      converse (typeAndSend st input t1 t2 answer) rest
  end.

(** Every send reads the clock no earlier than [b], and each later send at
    least 2 ms after the previous send's second reading. *)
Fixpoint clock_gap (b : nat) (turns : list Turn) : Prop :=
  match turns with
  | [] => True
  | (_, t1, t2, _) :: rest => (b <= t1 <= t2)%nat /\ clock_gap (t2 + 2) rest
  end.

(** Every message id is the decimal form of a number below [b]. *)
Definition ids_below (b : nat) (ms : list ChatMessage) : Prop :=
  Forall (fun m => exists k, msg_id m = numToString k /\ (k < b)%nat) ms.

(** ** services/ai: [postJson]

    A JSON object body is an association list of its string fields. *)
Definition JsonObject := list (string * string).

Record Response := mkResponse {
  res_ok : bool;
  res_status : nat;
  res_json : string + JsonObject   (** [inl msg]: [res.json()] throws *)
}.

Fixpoint jsonField (data : JsonObject) (key : string) : option string :=
  match data with
  | [] => None
  | (k, v) :: rest => if String.eqb k key then Some v else jsonField rest key
  end.

(** [inl msg]: the call throws an error with message [msg]; [fetched] is
    [inl msg] when [fetch] itself throws. *)
Definition postJson (url : string) (fetched : string + Response) :
    string + JsonObject :=
  match fetched with
  | inl msg => inl msg
  | inr res =>
      if negb (res_ok res) then
        inl ("Request to " ++ url ++ " failed with status " ++ numToString (res_status res))
      else
        match res_json res with
        | inl msg => inl msg
        | inr data =>
            match jsonField data "error" with
            | Some e => inl e
            | None => inr data
            end
        end
  end.

(** * Lemmas on the string primitives *)

Lemma append_empty_r (s : string) : s ++ "" = s.
Proof. induction s as [|c s IH]; simpl; [reflexivity | now rewrite IH]. Qed.

Lemma append_assoc (a b c : string) : (a ++ b) ++ c = a ++ b ++ c.
Proof. induction a as [|x a IH]; simpl; [reflexivity | now rewrite IH]. Qed.

Lemma startsWith_spec (s p : string) :
  JS.startsWith s p = true <-> exists b, s = p ++ b.
Proof.
  revert s. induction p as [|c p IH]; intros s; simpl.
  - split; [intros _; now exists s | reflexivity].
  - destruct s as [|d s].
    + split; [discriminate | intros [b Hb]; discriminate].
    + rewrite andb_true_iff, Ascii.eqb_eq, IH. split.
      * intros [-> [b ->]]. now exists b.
      * intros [b Hb]. injection Hb as -> ->. split; [reflexivity | now exists b].
Qed.

Lemma includes_spec (s p : string) :
  JS.includes s p = true <-> exists a b, s = a ++ p ++ b.
Proof.
  induction s as [|c s IH]; simpl; rewrite orb_true_iff, startsWith_spec.
  - split.
    + intros [[b Hb] | H]; [now exists "", b | discriminate].
    + intros [a [b Hab]]. left. destruct a; [now exists b | discriminate].
  - rewrite IH. split.
    + intros [[b Hb] | [a [b Hab]]].
      * now exists "", b.
      * exists (String c a), b. now rewrite Hab.
    + intros [[|x a] [b Hab]]; simpl in Hab.
      * left. now exists b.
      * right. injection Hab as -> ->. now exists a, b.
Qed.

Lemma includes_app (a p b : string) : JS.includes (a ++ p ++ b) p = true.
Proof. apply includes_spec. now exists a, b. Qed.

Lemma U_startsWith_spec (s p : ustring) :
  U.startsWith s p = true <-> exists b, s = (p ++ b)%list.
Proof.
  revert s. induction p as [|c p IH]; intros s; simpl.
  - split; [intros _; now exists s | reflexivity].
  - destruct s as [|d s].
    + split; [discriminate | intros [b Hb]; discriminate].
    + rewrite andb_true_iff, Z.eqb_eq, IH. split.
      * intros [-> [b ->]]. now exists b.
      * intros [b Hb]. injection Hb as -> ->. split; [reflexivity | now exists b].
Qed.

Lemma U_includes_spec (s p : ustring) :
  U.includes s p = true <-> exists a b, s = (a ++ p ++ b)%list.
Proof.
  induction s as [|c s IH]; simpl; rewrite orb_true_iff, U_startsWith_spec.
  - split.
    + intros [[b Hb] | H]; [now exists [], b | discriminate].
    + intros [a [b Hab]]. left. destruct a; [now exists b | discriminate].
  - rewrite IH. split.
    + intros [[b Hb] | [a [b Hab]]].
      * now exists [], b.
      * exists (c :: a), b. now rewrite Hab.
    + intros [[|x a] [b Hab]]; simpl in Hab.
      * left. now exists b.
      * right. injection Hab as -> ->. now exists a, b.
Qed.

Lemma latin1_app (a b : ustring) : latin1 (a ++ b)%list = latin1 a && latin1 b.
Proof. apply forallb_app. Qed.

(** Below 256 [toLowerCase] is a per-character map. *)
Lemma lowerFrom_latin1 (before s : ustring) :
  latin1 s = true -> U.lowerFrom before s = map U.lower_unit s.
Proof.
  revert before. induction s as [|c s IH]; intros before H; [reflexivity|].
  simpl in H. apply andb_true_iff in H as [Hc Hs].
  apply andb_true_iff in Hc as [_ Hc]. apply Z.ltb_lt in Hc.
  simpl. rewrite (IH _ Hs).
  replace (c =? 931)%Z with false by (symmetry; apply Z.eqb_neq; lia).
  reflexivity.
Qed.

Lemma toLowerCase_latin1 (s : ustring) :
  latin1 s = true -> U.toLowerCase s = map U.lower_unit s.
Proof. apply lowerFrom_latin1. Qed.



Lemma U_trimStart_ws (s : ustring) :
  forallb U.is_ws (U.trimStart s) = forallb U.is_ws s.
Proof.
  induction s as [|c s IH]; [reflexivity|]. simpl.
  destruct (U.is_ws c) eqn:Hc; [exact IH | simpl; now rewrite Hc].
Qed.

Lemma U_trimEnd_empty (s : ustring) : U.trimEnd s = [] <-> forallb U.is_ws s = true.
Proof.
  induction s as [|c s IH]; [simpl; tauto|]. simpl.
  destruct (U.trimEnd s) as [|d r] eqn:Hr.
  - destruct (U.is_ws c); simpl; [rewrite <- IH; tauto | split; discriminate].
  - rewrite andb_true_iff, <- IH. split; [discriminate | intros [_ H]; discriminate].
Qed.

Lemma U_trim_empty (s : ustring) : U.trim s = [] <-> forallb U.is_ws s = true.
Proof. unfold U.trim. now rewrite U_trimEnd_empty, U_trimStart_ws. Qed.

(** Whatever [dispatch] returns, [handleAddSource] accepts only non-empty
    content. *)
Lemma handleAddSource_content (st : ModalState) (env : Env) (s : Source) :
  handleAddSource st env = inr s -> String.length (src_content s) > 0.
Proof.
  unfold handleAddSource.
  destruct (dispatch st env) as [msg | [[[c ty] t] m]]; [discriminate|].
  destruct c as [|x c]; simpl; [discriminate|].
  intros H. injection H as <-. simpl. lia.
Qed.

Lemma handleAddSource_guard (st : ModalState) (env : Env) c ty t m :
  dispatch st env = inr (c, ty, t, m) ->
  (handleAddSource st env = inl "No content could be extracted." <-> c = "").
Proof.
  intros Hd. unfold handleAddSource. rewrite Hd.
  destruct c as [|x c]; simpl; split; congruence.
Qed.

(** * Claims *)

Definition nonEmptyContent (s : Source) : Prop := String.length (src_content s) > 0.

(** C1: whatever the request, when the dispatched content is the empty string
    [handleAddSource] fails with the [EmptyContent] message and the notebook
    is left as it was; and adding through the UI preserves the invariant that
    every source of the notebook has non-empty content. *)
Theorem ingest_empty_content_rejected (st : ModalState) (env : Env)
    (nb : Notebook) (now : nat) :
  (forall ty t m, dispatch st env = inr ("", ty, t, m) ->
     handleAddSource st env = inl "No content could be extracted." /\
     error_class "No content could be extracted." = EmptyContent /\
     submitSource nb st env now = nb) /\
  (Forall nonEmptyContent (nb_sources nb) ->
   Forall nonEmptyContent (nb_sources (submitSource nb st env now))).
Proof.
  split.
  - intros ty t m Hd. unfold submitSource, handleAddSource. rewrite Hd.
    simpl. auto.
  - intros Hall. unfold submitSource.
    destruct (handleAddSource st env) as [msg | s] eqn:Hs; [exact Hall|].
    simpl. apply Forall_app. split; [exact Hall|].
    constructor; [exact (handleAddSource_content st env s Hs) | constructor].
Qed.

Definition emptyNotebook : Notebook := mkNotebook "nb1" "Notebook" [] 0.

Definition env0 : Env := mkEnv None None "10:00:00 AM" "uuid-1" 5.

Definition textState (input title : string) : ModalState :=
  mkModalState (Some TextModal) None input title None.

Lemma ingest_empty_content_rejected_witness :
  handleAddSource (textState "" "") env0 = inl "No content could be extracted."
  /\ Forall nonEmptyContent
       (nb_sources (submitSource emptyNotebook (textState "hi" "") env0 7)).
Proof.
  destruct (ingest_empty_content_rejected (textState "" "") env0 emptyNotebook 7)
    as [H1 _].
  destruct (ingest_empty_content_rejected (textState "hi" "") env0
              emptyNotebook 7) as [_ H2].
  split.
  - apply (H1 "copiedText" ("Pasted Text " ++ "10:00:00 AM") MetaEmpty).
    reflexivity.
  - apply H2. constructor.
Defined.

(** C2 as stated: a file request with no file selected fails with an error
    of class [MissingInput] and adds no source.  A request is a click on
    Add Source. *)
Definition claim_missing_input : Prop :=
  forall u env nb now,
    activeModal (ui_form u) = Some FileModal -> selectedFile (ui_form u) = None ->
    isProcessing u = false ->
    exists msg, ui_error (fst (clickAddSource u env nb now)) = Some msg /\
      error_class msg = MissingInput /\ snd (clickAddSource u env nb now) = nb.

(** The pdf modal as it opens: no file selected, no text value (the file
    modal has no text field). *)
Definition pdfModalOpen : SourcesUI :=
  mkSourcesUI (mkModalState (Some FileModal) (Some PdfFile) "" "" None) false None.

(** C2 counterexample: in the pdf modal with no file selected the Add
    Source button is disabled; a click on it changes nothing and no error
    is shown, of class [MissingInput] or any other. *)
Lemma missing_file_not_missing_input : ~ claim_missing_input.
Proof.
  intros H.
  destruct (H pdfModalOpen env0 emptyNotebook 0 eq_refl eq_refl eq_refl)
    as [msg [Herr _]].
  vm_compute in Herr. discriminate.
Qed.

(** C2 (amended): a file request (pdf, audio or image) with no file
    selected never adds a source.  With an empty text value the Add Source
    button is disabled and a click changes nothing (no error is shown);
    only with a text value present does [handleAddSource] run, and it then
    fails with ["No content could be extracted."], of class
    [EmptyContent]. *)
Theorem missing_file_no_source (u : SourcesUI) (env : Env) (nb : Notebook)
    (now : nat) :
  activeModal (ui_form u) = Some FileModal -> selectedFile (ui_form u) = None ->
  snd (clickAddSource u env nb now) = nb /\
  (inputValue (ui_form u) = "" -> clickAddSource u env nb now = (u, nb)) /\
  (isProcessing u = false -> inputValue (ui_form u) <> "" ->
   ui_error (fst (clickAddSource u env nb now)) =
     Some "No content could be extracted." /\
   error_class "No content could be extracted." = EmptyContent).
Proof.
  intros Hm Hf.
  assert (Hh : handleAddSource (ui_form u) env =
               inl "No content could be extracted.").
  { unfold handleAddSource, dispatch. rewrite Hm, Hf. reflexivity. }
  unfold clickAddSource, addDisabled. rewrite Hf, Hh.
  split; [|split].
  - destruct (_ || _); reflexivity.
  - intros He. rewrite He. cbn [JS.truthy negb andb]. now rewrite orb_true_r.
  - intros Hp He. rewrite Hp.
    destruct (inputValue (ui_form u)) as [|c r]; [congruence|].
    split; reflexivity.
Qed.

Lemma missing_file_no_source_witness :
  clickAddSource pdfModalOpen env0 emptyNotebook 0 = (pdfModalOpen, emptyNotebook) /\
  ui_error (fst (clickAddSource
    (mkSourcesUI (mkModalState (Some FileModal) (Some AudioFile) "x" "" None)
       false None) env0 emptyNotebook 0)) = Some "No content could be extracted.".
Proof.
  split.
  - apply (missing_file_no_source pdfModalOpen env0 emptyNotebook 0);
      reflexivity.
  - apply (missing_file_no_source _ env0 emptyNotebook 0);
      [reflexivity | reflexivity | reflexivity | discriminate].
Defined.

Definition notesSource : Source :=
  mkSource "s1" "copiedText" "Notes" "some text" 1 MetaEmpty.

Definition notesNotebook : Notebook := mkNotebook "nb1" "Notebook" [notesSource] 1.

(** C3 (failing input): on the card of a source titled ["Notes"], entering
    ["Notes "] (equal to the current title once trimmed) still calls
    [editSource], which sets [updatedAt] to the current time: the guard
    compares the untrimmed input with the current title. *)
Theorem edit_title_trimmed_equal_bumps :
  JS.trim "Notes " = src_title notesSource /\
  editTitleClick notesSource (Some "Notes ") = Some notesSource /\
  nb_updatedAt (editSourceTitle notesNotebook notesSource (Some "Notes ") 2) = 2 /\
  nb_updatedAt notesNotebook = 1.
Proof. vm_compute. auto. Qed.

(** The sibling path [saveTitle] trims before comparing: the same input is
    a no-op on a notebook titled ["Notes"]. *)
Lemma saveTitle_trimmed_equal_noop :
  saveTitle (mkNotebook "nb1" "Notes" [] 1) "Notes " 2 =
  mkNotebook "nb1" "Notes" [] 1.
Proof. vm_compute. reflexivity. Qed.

(** C4 as stated: pasted text yields a source of type ["pastedText"]. *)
Definition claim_pasted_type : Prop :=
  forall st env s, activeModal st = Some TextModal ->
  handleAddSource st env = inr s -> src_type s = "pastedText".

(** C4 counterexample: pasting ["hello"] yields a source of type
    ["copiedText"], which is not in the spec's set. *)
Lemma pasted_text_type_counterexample :
  ~ claim_pasted_type /\ ~ In "copiedText" spec_source_types.
Proof.
  split.
  - intros H.
    specialize (H (textState "hello" "") env0
                  (mkSource "uuid-1" "copiedText" ("Pasted Text 10:00:00 AM")
                     "hello" 5 MetaEmpty) eq_refl eq_refl).
    discriminate H.
  - vm_compute. intros [H | [H | [H | [H | [H | [H | []]]]]]]; discriminate H.
Qed.

(** C4 (amended): every source [handleAddSource] produces has a type in the
    closed set {copiedText, website, youtube, pdf, audio, image}, and pasted
    text yields type ["copiedText"]. *)
Theorem ingest_type_closed (st : ModalState) (env : Env) (s : Source) :
  handleAddSource st env = inr s ->
  In (src_type s) code_source_types /\
  (activeModal st = Some TextModal -> src_type s = "copiedText").
Proof.
  unfold handleAddSource.
  destruct (dispatch st env) as [msg | [[[c ty] t] m]] eqn:Hd; [discriminate|].
  destruct (negb (JS.truthy c)); [discriminate|].
  intros H. injection H as <-. simpl.
  unfold dispatch in Hd.
  destruct (activeModal st) as [[| | |] |]; simpl.
  - injection Hd as _ <- _ _. split; [left; reflexivity | auto].
  - destruct (negb (JS.startsWith (inputValue st) "http")); [discriminate|].
    injection Hd as _ <- _ _. split; [cbv; tauto | discriminate].
  - destruct (_ && _); [discriminate|].
    injection Hd as _ <- _ _. split; [cbv; tauto | discriminate].
  - split; [| discriminate].
    destruct (selectedFile st), (fileType st) as [[| |]|];
      injection Hd as _ <- _ _; cbv; tauto.
  - injection Hd as _ <- _ _. split; [left; reflexivity | discriminate].
Qed.

Lemma ingest_type_closed_witness :
  In "copiedText" code_source_types /\ ("copiedText" = "copiedText").
Proof.
  destruct (ingest_type_closed (textState "hello" "") env0
              (mkSource "uuid-1" "copiedText" ("Pasted Text 10:00:00 AM")
                 "hello" 5 MetaEmpty) eq_refl) as [H1 H2].
  split; [exact H1 | apply H2; reflexivity].
Defined.

(** C5: a website request whose input does not start with ["http"], or a
    youtube request whose input contains neither ["youtube.com"] nor
    ["youtu.be"], fails with an [InvalidInput] message and leaves the
    notebook as it was. *)
Theorem invalid_url_rejected (st : ModalState) (env : Env) (nb : Notebook)
    (now : nat) :
  (activeModal st = Some WebsiteModal ->
   JS.startsWith (inputValue st) "http" = false ->
   handleAddSource st env = inl "Invalid URL" /\
   error_class "Invalid URL" = InvalidInput /\
   submitSource nb st env now = nb) /\
  (activeModal st = Some YoutubeModal ->
   JS.includes (inputValue st) "youtube.com" = false ->
   JS.includes (inputValue st) "youtu.be" = false ->
   handleAddSource st env = inl "Invalid YouTube URL" /\
   error_class "Invalid YouTube URL" = InvalidInput /\
   submitSource nb st env now = nb).
Proof.
  split.
  - intros Hm Hh. unfold submitSource, handleAddSource, dispatch.
    rewrite Hm, Hh. simpl. auto.
  - intros Hm H1 H2. unfold submitSource, handleAddSource, dispatch.
    rewrite Hm, H1, H2. simpl. auto.
Qed.

Lemma invalid_url_rejected_witness :
  handleAddSource (mkModalState (Some WebsiteModal) None "ftp://x" "" None) env0
    = inl "Invalid URL" /\
  handleAddSource (mkModalState (Some YoutubeModal) None "https://vimeo.com/1" "" None)
    env0 = inl "Invalid YouTube URL".
Proof.
  split.
  - apply (proj1 (invalid_url_rejected
                    (mkModalState (Some WebsiteModal) None "ftp://x" "" None)
                    env0 emptyNotebook 0)); reflexivity.
  - apply (proj2 (invalid_url_rejected
                    (mkModalState (Some YoutubeModal) None "https://vimeo.com/1" "" None)
                    env0 emptyNotebook 0)); vm_compute; reflexivity.
Defined.

(** C6: [fetchWebsiteContent] is a total function to strings; when the
    fetch throws, or when the stripped page text trims to the empty string,
    it returns one of its two placeholders, and that placeholder contains
    the url. *)
Theorem fetch_placeholder_contains_url (url : string) (page : option string) :
  (page = None \/ exists text, page = Some text /\ JS.trim (strip_markup text) = "") ->
  (fetchWebsiteContent url page = "Could not fetch content from " ++ url ++ "." \/
   fetchWebsiteContent url page = "Retrieved content from " ++ url) /\
  JS.includes (fetchWebsiteContent url page) url = true.
Proof.
  intros [-> | [text [-> Ht]]]; unfold fetchWebsiteContent.
  - split; [now left | apply includes_app].
  - unfold JS.or_else. rewrite Ht. cbn [JS.truthy]. split; [now right|].
    rewrite <- (append_empty_r url) at 1. rewrite <- append_assoc.
    rewrite append_assoc. apply includes_app.
Qed.

Lemma fetch_placeholder_contains_url_witness :
  JS.includes (fetchWebsiteContent "http://nonexistent.invalid/" None)
    "http://nonexistent.invalid/" = true /\
  JS.includes (fetchWebsiteContent "http://a.example/" (Some "<script>x</script> <p> </p>"))
    "http://a.example/" = true.
Proof.
  split.
  - apply (fetch_placeholder_contains_url "http://nonexistent.invalid/" None).
    now left.
  - apply (fetch_placeholder_contains_url "http://a.example/"
             (Some "<script>x</script> <p> </p>")).
    right. exists "<script>x</script> <p> </p>". split; [reflexivity|].
    vm_compute. reflexivity.
Defined.

(** C7: on a declared MIME type starting with ["text/"],
    [processFileWithGemini] returns the decoded text verbatim (and, when
    decoding throws, a placeholder naming the file); on any other MIME type
    it returns a stub containing both the file name and the MIME type.  It
    is a total function to strings. *)
Theorem transcribe_text_or_stub (file : File) (mimeType : string) :
  (JS.startsWith mimeType "text/" = true -> forall text,
     file_text file = Some text -> processFileWithGemini file mimeType = text) /\
  (JS.startsWith mimeType "text/" = true -> file_text file = None ->
     JS.includes (processFileWithGemini file mimeType) (file_name file) = true) /\
  (JS.startsWith mimeType "text/" = false ->
     JS.includes (processFileWithGemini file mimeType) (file_name file) = true /\
     JS.includes (processFileWithGemini file mimeType) mimeType = true).
Proof.
  unfold processFileWithGemini.
  split; [|split].
  - intros Ht text Hf. now rewrite Ht, Hf.
  - intros Ht Hf. rewrite Ht, Hf. apply includes_app.
  - intros Ht. rewrite Ht. split.
    + apply includes_app.
    + match goal with
      | |- JS.includes (?a ++ ?n ++ ?t ++ mimeType ++ ?r) _ = true =>
          replace (a ++ n ++ t ++ mimeType ++ r)
            with ((a ++ n ++ t) ++ mimeType ++ r) by now rewrite !append_assoc
      end.
      apply includes_app.
Qed.

Definition helloFile : File := mkFile "hello.txt" "text/plain" 5 (Some "hello").
Definition pngFile : File := mkFile "pic.png" "image/png" 100 None.

Lemma transcribe_text_or_stub_witness :
  processFileWithGemini helloFile "text/plain" = "hello" /\
  JS.includes (processFileWithGemini pngFile "image/png") "pic.png" = true /\
  JS.includes (processFileWithGemini pngFile "image/png") "image/png" = true.
Proof.
  destruct (transcribe_text_or_stub helloFile "text/plain") as [H1 _].
  destruct (transcribe_text_or_stub pngFile "image/png") as [_ [_ H3]].
  split; [apply H1; reflexivity|].
  apply H3. reflexivity.
Defined.


(** A source titled "ΚΟΣΜΟΣ" (Greek capitals, code units U+039A U+039F
    U+03A3 U+039C U+039F U+03A3), with content "x". *)
Definition kosmosSource : ustring * ustring :=
  ([922; 927; 931; 924; 927; 931]%Z, [120]%Z).

(** The query "ΚΟΣ". *)
Definition kosQuery : ustring := [922; 927; 931]%Z.



Definition catsSource : Source := mkSource "a" "copiedText" "Cats" "x" 1 MetaEmpty.
Definition dogsSource : Source :=
  mkSource "b" "copiedText" "Dogs" "cats are great" 2 MetaEmpty.


(** C9: the final guard tests only for the empty string: it fails iff the
    dispatched content is [""]; a pasted text that is non-empty but made only
    of white space is accepted verbatim as the source's content. *)
Theorem whitespace_paste_accepted (st : ModalState) (env : Env) :
  (forall c ty t m, dispatch st env = inr (c, ty, t, m) ->
   (handleAddSource st env = inl "No content could be extracted." <-> c = "")) /\
  (activeModal st = Some TextModal -> inputValue st <> "" ->
   JS.trim (inputValue st) = "" ->
   exists s, handleAddSource st env = inr s /\ src_content s = inputValue st).
Proof.
  split.
  - intros c ty t m Hd. exact (handleAddSource_guard st env c ty t m Hd).
  - intros Hm Hne _. unfold handleAddSource, dispatch. rewrite Hm.
    destruct (inputValue st) as [|x r] eqn:Hi; [congruence|]. simpl.
    eexists. split; reflexivity.
Qed.

Lemma whitespace_paste_accepted_witness :
  exists s, handleAddSource (textState "   " "") env0 = inr s /\ src_content s = "   ".
Proof.
  apply (proj2 (whitespace_paste_accepted (textState "   " "") env0));
    [reflexivity | discriminate | reflexivity].
Defined.

(** C10: [deleteSource] always sets [updatedAt] to the current time; it keeps
    exactly the sources whose id differs from the given one, unchanged and in
    order; when no source has that id the source list is the input's. *)
Theorem deleteSource_frame (nb : Notebook) (id : string) (now : nat) :
  nb_updatedAt (deleteSource nb id now) = now /\
  nb_id (deleteSource nb id now) = nb_id nb /\
  nb_title (deleteSource nb id now) = nb_title nb /\
  nb_sources (deleteSource nb id now) =
    filter (fun s => negb (String.eqb (src_id s) id)) (nb_sources nb) /\
  (forall s, In s (nb_sources (deleteSource nb id now)) <->
             In s (nb_sources nb) /\ src_id s <> id) /\
  (Forall (fun s => src_id s <> id) (nb_sources nb) ->
   nb_sources (deleteSource nb id now) = nb_sources nb).
Proof.
  split; [reflexivity|]. split; [reflexivity|]. split; [reflexivity|].
  split; [reflexivity|]. split.
  - intros s. simpl. rewrite filter_In, negb_true_iff, String.eqb_neq.
    reflexivity.
  - intros Hall. simpl. induction Hall as [|s ss Hs _ IH]; [reflexivity|].
    simpl. apply String.eqb_neq in Hs. rewrite Hs. simpl. now rewrite IH.
Qed.

Lemma deleteSource_frame_witness :
  nb_sources (deleteSource notesNotebook "unknown" 9) = nb_sources notesNotebook /\
  nb_updatedAt (deleteSource notesNotebook "unknown" 9) = 9.
Proof.
  destruct (deleteSource_frame notesNotebook "unknown" 9) as [Ht [_ [_ [_ [_ H]]]]].
  split; [|exact Ht].
  apply H. constructor; [discriminate | constructor].
Defined.

(** * Further properties of the ingestion path *)

Lemma or_else_truthy (a b : string) :
  JS.truthy b = true -> JS.truthy (JS.or_else a b) = true.
Proof. unfold JS.or_else. destruct (JS.truthy a) eqn:Ha; auto. Qed.

(** [fetchWebsiteContent] never returns the empty string. *)
Lemma fetchWebsiteContent_truthy (url : string) (page : option string) :
  JS.truthy (fetchWebsiteContent url page) = true.
Proof.
  destruct page; unfold fetchWebsiteContent; [apply or_else_truthy|]; reflexivity.
Qed.

(** A website request whose input starts with ["http"] always succeeds,
    whatever the network does: the content is what [fetchWebsiteContent]
    returns, the title is the user's title or else the url, and the metadata
    records the url. *)
Theorem website_ingest_succeeds (st : ModalState) (env : Env) :
  activeModal st = Some WebsiteModal ->
  JS.startsWith (inputValue st) "http" = true ->
  handleAddSource st env =
    inr (mkSource (env_uuid env) "website"
           (JS.or_else (titleValue st) (inputValue st))
           (fetchWebsiteContent (inputValue st) (env_page env))
           (env_now env) (MetaUrl (inputValue st))).
Proof.
  intros Hm Hh. unfold handleAddSource, dispatch. rewrite Hm, Hh. cbn [negb].
  rewrite fetchWebsiteContent_truthy. reflexivity.
Qed.

Lemma website_ingest_succeeds_witness :
  handleAddSource (mkModalState (Some WebsiteModal) None "https://x.org" "" None) env0
  = inr (mkSource "uuid-1" "website" "https://x.org"
           "Could not fetch content from https://x.org." 5 (MetaUrl "https://x.org")).
Proof. apply website_ingest_succeeds; reflexivity. Defined.

(** A youtube request carrying a host marker always succeeds.  Its title is
    never empty: it is the looked-up title when the lookup returns a
    non-empty one, and otherwise the user's title or ["YouTube Video"] (in
    particular when the lookup throws).  Its content names the url and the
    title. *)
Theorem youtube_ingest_succeeds (st : ModalState) (env : Env) :
  activeModal st = Some YoutubeModal ->
  JS.includes (inputValue st) "youtube.com" = true \/
  JS.includes (inputValue st) "youtu.be" = true ->
  exists s, handleAddSource st env = inr s /\
    src_type s = "youtube" /\
    src_metadata s = MetaUrl (inputValue st) /\
    JS.truthy (src_title s) = true /\
    (forall t, env_oembed env = Some (Some t) -> JS.truthy t = true ->
               src_title s = t) /\
    (env_oembed env = None ->
     src_title s = JS.or_else (titleValue st) "YouTube Video") /\
    JS.includes (src_content s) (inputValue st) = true /\
    JS.includes (src_content s) (src_title s) = true.
Proof.
  intros Hm Hmark. unfold handleAddSource, dispatch. rewrite Hm.
  assert (Hg : negb (JS.includes (inputValue st) "youtube.com") &&
               negb (JS.includes (inputValue st) "youtu.be") = false).
  { destruct Hmark as [H | H]; rewrite H; [reflexivity | apply andb_false_r]. }
  rewrite Hg.
  set (t1 := match env_oembed env with
             | Some (Some t) => if JS.truthy t then t else titleValue st
             | _ => titleValue st end).
  set (t2 := JS.or_else t1 "YouTube Video").
  assert (Hc : JS.truthy (youtubeContent (inputValue st) t2) = true)
    by reflexivity.
  cbv zeta. fold t1. fold t2. rewrite Hc. cbn [negb].
  eexists. split; [reflexivity|]. cbn [src_type src_metadata src_title src_content].
  split; [reflexivity|]. split; [reflexivity|].
  split; [apply or_else_truthy; reflexivity|].
  split; [|split; [|split]].
  - intros t Ho Ht. subst t2 t1. rewrite Ho, Ht. unfold JS.or_else. now rewrite Ht.
  - intros Ho. subst t2 t1. now rewrite Ho.
  - unfold youtubeContent.
    match goal with
    | |- JS.includes (?a ++ ?b ++ ?c ++ ?u ++ ?r) _ = true =>
        replace (a ++ b ++ c ++ u ++ r) with ((a ++ b ++ c) ++ u ++ r)
          by now rewrite !append_assoc
    end. apply includes_app.
  - unfold youtubeContent.
    match goal with
    | |- JS.includes (?a ++ ?b ++ ?c ++ ?u ++ ?d ++ ?e ++ t2 ++ ?r) _ = true =>
        replace (a ++ b ++ c ++ u ++ d ++ e ++ t2 ++ r)
          with ((a ++ b ++ c ++ u ++ d ++ e) ++ t2 ++ r)
          by now rewrite !append_assoc
    end. apply includes_app.
Qed.

Lemma youtube_ingest_succeeds_witness :
  exists s, handleAddSource
      (mkModalState (Some YoutubeModal) None "https://youtu.be/abc" "" None) env0 = inr s
    /\ src_title s = "YouTube Video".
Proof.
  destruct (youtube_ingest_succeeds
              (mkModalState (Some YoutubeModal) None "https://youtu.be/abc" "" None)
              env0 eq_refl (or_intror eq_refl))
    as [s [Hs [_ [_ [_ [_ [Ho _]]]]]]].
  exists s. split; [exact Hs | apply Ho; reflexivity].
Defined.

Lemma processFile_empty (f : File) (m : string) :
  processFileWithGemini f m = "" <->
  JS.startsWith m "text/" = true /\ file_text f = Some "".
Proof.
  unfold processFileWithGemini.
  destruct (JS.startsWith m "text/"); [|split; [discriminate | intros [H _]; discriminate]].
  destruct (file_text f) as [t|].
  - split; [intros ->; auto | intros [_ H]; injection H as ->; reflexivity].
  - split; [discriminate | intros [_ H]; discriminate].
Qed.

(** With a file and a file type selected, adding a file source fails only
    when the declared MIME type starts with ["text/"] and the file decodes to
    the empty string (then with the [EmptyContent] message); otherwise the
    source carries the chosen file type, the user's title or else the file
    name, the transcriber's output and the file's name and size. *)
Theorem file_ingest_outcome (st : ModalState) (env : Env) (f : File)
    (ft : FileType) :
  activeModal st = Some FileModal -> selectedFile st = Some f ->
  fileType st = Some ft ->
  (handleAddSource st env = inl "No content could be extracted." <->
   JS.startsWith (file_type f) "text/" = true /\ file_text f = Some "") /\
  (JS.startsWith (file_type f) "text/" = true /\ file_text f = Some "" \/
   handleAddSource st env =
     inr (mkSource (env_uuid env) (fileTypeName ft)
            (JS.or_else (titleValue st) (file_name f))
            (processFileWithGemini f (file_type f)) (env_now env)
            (MetaFile (file_name f) (file_size f)))).
Proof.
  intros Hm Hf Ht. rewrite <- processFile_empty.
  unfold handleAddSource, dispatch. rewrite Hm, Hf, Ht.
  destruct (processFileWithGemini f (file_type f)) as [|c r]; cbn.
  - split; [tauto | now left].
  - split; [split; discriminate | now right].
Qed.

Lemma file_ingest_outcome_witness :
  handleAddSource (mkModalState (Some FileModal) (Some ImageFile) "" "" (Some pngFile)) env0
  = inr (mkSource "uuid-1" "image" "pic.png"
           (processFileWithGemini pngFile "image/png") 5 (MetaFile "pic.png" 100)).
Proof.
  destruct (file_ingest_outcome
              (mkModalState (Some FileModal) (Some ImageFile) "" "" (Some pngFile))
              env0 pngFile ImageFile eq_refl eq_refl eq_refl) as [_ [[H _] | H]].
  - discriminate H.
  - exact H.
Defined.

(** Every source added from the text, website or youtube forms has a
    non-empty title: the defaults fill in a missing user title. *)
Theorem nonfile_title_nonempty (st : ModalState) (env : Env) (s : Source) :
  handleAddSource st env = inr s -> activeModal st <> Some FileModal ->
  JS.truthy (src_title s) = true.
Proof.
  intros Hs Hnf. unfold handleAddSource, dispatch in Hs.
  destruct (activeModal st) as [[| | |]|]; [| | | congruence |].
  - destruct (JS.truthy (inputValue st)); [|discriminate].
    injection Hs as <-. apply or_else_truthy. reflexivity.
  - destruct (JS.startsWith (inputValue st) "http") eqn:Hh; [|discriminate].
    cbn [negb] in Hs.
    destruct (JS.truthy (fetchWebsiteContent (inputValue st) (env_page env)));
      [|discriminate].
    injection Hs as <-. apply or_else_truthy.
    destruct (inputValue st); [discriminate | reflexivity].
  - destruct (_ && _); [discriminate|]. cbn in Hs.
    injection Hs as <-. apply or_else_truthy. reflexivity.
  - discriminate.
Qed.

Lemma nonfile_title_nonempty_witness :
  JS.truthy (src_title (mkSource "uuid-1" "copiedText" "Pasted Text 10:00:00 AM"
                          "hello" 5 MetaEmpty)) = true.
Proof.
  apply (nonfile_title_nonempty (textState "hello" "") env0); [reflexivity | discriminate].
Defined.

Lemma lower_char_lt (c : ascii) : JS.lower_char c = "<"%char -> c = "<"%char.
Proof.
  unfold JS.lower_char. cbv zeta.
  destruct ((65 <=? nat_of_ascii c) && (nat_of_ascii c <=? 90))%nat eqn:Hr; [|auto].
  intros H. apply andb_true_iff in Hr as [H1 H2].
  apply Nat.leb_le in H1, H2.
  assert (Hn := f_equal nat_of_ascii H).
  assert (Hb : (nat_of_ascii c + 32 < 256)%nat) by lia.
  rewrite (Ascii.nat_ascii_embedding _ Hb) in Hn. change (nat_of_ascii "<"%char) with 60%nat in Hn. lia.
Qed.

Lemma replace_fuel_no_lt (m : string -> option string) (rep : string) :
  (forall c s, c <> "<"%char -> m (String c s) = None) ->
  forall fuel s, JS.includes s "<" = false -> Regex.replace_fuel fuel m rep s = s.
Proof.
  intros Hm fuel. induction fuel as [|fuel IH]; intros s Hs; [reflexivity|].
  destruct s as [|c s]; [reflexivity|]. simpl in Hs.
  apply orb_false_iff in Hs as [Hc Hs]. rewrite andb_true_r in Hc.
  cbn [Regex.replace_fuel]. rewrite Hm.
  - now rewrite IH.
  - intros ->. discriminate Hc.
Qed.

Lemma block_re_no_lt (tag : string) (c : ascii) (s : string) :
  c <> "<"%char -> Regex.block_re tag (String c s) = None.
Proof.
  intros Hc. unfold Regex.block_re. cbn [append Regex.match_ci].
  destruct (Ascii.eqb (JS.lower_char "<") (JS.lower_char c)) eqn:He; [|reflexivity].
  apply Ascii.eqb_eq in He. symmetry in He. apply lower_char_lt in He. congruence.
Qed.

(** A page whose text has no ['<'] goes through the markup stripping
    unchanged: the fetcher returns it trimmed, or the placeholder when it
    is only white space. *)
Theorem fetch_plain_page (url text : string) :
  JS.includes text "<" = false ->
  fetchWebsiteContent url (Some text) =
    JS.or_else (JS.trim text) ("Retrieved content from " ++ url).
Proof.
  intros Ht. unfold fetchWebsiteContent, strip_markup, Regex.replace_global.
  rewrite (replace_fuel_no_lt _ _ (block_re_no_lt "script")) by exact Ht.
  rewrite (replace_fuel_no_lt _ _ (block_re_no_lt "style")) by exact Ht.
  rewrite (replace_fuel_no_lt Regex.tag_re); [reflexivity | | exact Ht].
  intros c s Hc. destruct c as [[] [] [] [] [] [] [] []]; try reflexivity.
  exfalso. now apply Hc.
Qed.

Lemma fetch_plain_page_witness :
  fetchWebsiteContent "http://a" (Some "  plain text ") = "plain text".
Proof. rewrite fetch_plain_page; reflexivity. Defined.

(** * Further properties of the notebook mutations *)

(** [saveTitle] is idempotent: saving the same edited title a second time
    (at any later time) changes nothing.  It never touches the sources and
    never leaves a blank title when the old one was not blank. *)
Theorem saveTitle_idempotent (nb : Notebook) (editedTitle : string) (n1 n2 : nat) :
  saveTitle (saveTitle nb editedTitle n1) editedTitle n2 = saveTitle nb editedTitle n1 /\
  nb_sources (saveTitle nb editedTitle n1) = nb_sources nb /\
  nb_id (saveTitle nb editedTitle n1) = nb_id nb /\
  (JS.truthy (nb_title nb) = true ->
   JS.truthy (nb_title (saveTitle nb editedTitle n1)) = true).
Proof.
  unfold saveTitle. cbv zeta.
  destruct (JS.truthy (JS.trim editedTitle)) eqn:Ht; cbn [andb].
  - destruct (String.eqb (JS.trim editedTitle) (nb_title nb)) eqn:He;
      cbn [negb nb_title nb_sources nb_id].
    + rewrite ?He. cbn. auto.
    + rewrite String.eqb_refl. cbn. auto.
  - cbn. auto.
Qed.

Lemma saveTitle_idempotent_witness :
  saveTitle (saveTitle notesNotebook " Plans " 2) " Plans " 3 =
    mkNotebook "nb1" "Plans" [notesSource] 2 /\
  JS.truthy (nb_title (saveTitle notesNotebook "   " 2)) = true.
Proof.
  destruct (saveTitle_idempotent notesNotebook " Plans " 2 3) as [H1 _].
  destruct (saveTitle_idempotent notesNotebook "   " 2 2) as [_ [_ [_ H4]]].
  split; [rewrite H1; reflexivity | apply H4; reflexivity].
Defined.

Lemma NoDup_ids_other (l1 l2 : list Source) (s0 x : Source) :
  NoDup (map src_id (l1 ++ s0 :: l2)%list) -> In x (l1 ++ l2)%list -> src_id x <> src_id s0.
Proof.
  rewrite map_app. cbn [map]. intros Hnd Hx Heq.
  apply NoDup_remove_2 in Hnd. apply Hnd.
  rewrite <- map_app. rewrite <- Heq. now apply in_map.
Qed.

(** In a notebook whose source ids are distinct, entering on a source's card
    a title that differs from the current one and is not blank changes that
    source's title to the trimmed input, keeps every other field of it and
    every other source as they were, and sets [updatedAt] to now. *)
Theorem editSourceTitle_changes_one (nb : Notebook) (l1 l2 : list Source)
    (s0 : Source) (t : string) (now : nat) :
  nb_sources nb = (l1 ++ s0 :: l2)%list -> NoDup (map src_id (nb_sources nb)) ->
  JS.truthy (JS.trim t) = true -> t <> src_title s0 ->
  let nb' := editSourceTitle nb s0 (Some t) now in
  nb_sources nb' =
    (l1 ++ mkSource (src_id s0) (src_type s0) (JS.trim t) (src_content s0)
                    (src_createdAt s0) (src_metadata s0) :: l2)%list /\
  nb_updatedAt nb' = now /\ nb_title nb' = nb_title nb.
Proof.
  intros Hl Hnd Ht Hne nb'. subst nb'.
  unfold editSourceTitle, editTitleClick.
  assert (Htr : JS.truthy t = true) by (destruct t; [discriminate | reflexivity]).
  apply String.eqb_neq in Hne.
  rewrite Htr, Ht, Hne. cbn [andb negb].
  unfold editSource. cbn [nb_sources nb_updatedAt nb_title src_id].
  rewrite Hl in *. split; [|auto].
  rewrite map_app. cbn [map]. rewrite String.eqb_refl.
  f_equal; [|f_equal]; [rewrite <- (map_id l1) at 2 | rewrite <- (map_id l2) at 2];
    apply map_ext_in; intros x Hx;
    destruct (String.eqb (src_id x) (src_id s0)) eqn:He; try reflexivity;
    apply String.eqb_eq in He; exfalso;
    refine (NoDup_ids_other l1 l2 s0 x Hnd _ He); apply in_or_app; auto.
Qed.

Definition threeNotebook : Notebook :=
  mkNotebook "nb1" "Notebook" [catsSource; notesSource; dogsSource] 1.

Lemma editSourceTitle_changes_one_witness :
  nb_sources (editSourceTitle threeNotebook notesSource (Some " Ideas ") 2) =
    [catsSource; mkSource "s1" "copiedText" "Ideas" "some text" 1 MetaEmpty;
     dogsSource] /\
  nb_updatedAt (editSourceTitle threeNotebook notesSource (Some " Ideas ") 2) = 2.
Proof.
  destruct (editSourceTitle_changes_one threeNotebook [catsSource] [dogsSource]
              notesSource " Ideas " 2) as [H1 [H2 _]].
  - reflexivity.
  - cbn. repeat constructor; cbn; intuition discriminate.
  - reflexivity.
  - discriminate.
  - split; [exact H1 | exact H2].
Defined.

(** Adding a source whose id is new and then deleting by that id gives back
    the original list of sources. *)
Theorem add_then_delete (nb : Notebook) (s : Source) (n1 n2 : nat) :
  Forall (fun x => src_id x <> src_id s) (nb_sources nb) ->
  nb_sources (deleteSource (addSource nb s n1) (src_id s) n2) = nb_sources nb.
Proof.
  intros Hall. unfold deleteSource, addSource. cbn [nb_sources].
  rewrite filter_app. cbn [filter]. rewrite String.eqb_refl. cbn [negb].
  rewrite app_nil_r.
  induction Hall as [|x xs Hx _ IH]; [reflexivity|].
  cbn [filter]. apply String.eqb_neq in Hx. rewrite Hx. cbn [negb]. now rewrite IH.
Qed.

Lemma add_then_delete_witness :
  nb_sources (deleteSource (addSource notesNotebook catsSource 3) "a" 4)
  = nb_sources notesNotebook.
Proof.
  apply (add_then_delete notesNotebook catsSource 3 4).
  constructor; [discriminate | constructor].
Defined.

(** The non-empty-content invariant of the notebook is kept by every
    mutation of [NotebookView]: deleting a source, editing a source's title
    from its card, and renaming the notebook. *)
Theorem mutations_keep_content_invariant (nb : Notebook) (id : string)
    (source : Source) (newTitle : option string) (editedTitle : string) (now : nat) :
  Forall nonEmptyContent (nb_sources nb) ->
  Forall nonEmptyContent (nb_sources (deleteSource nb id now)) /\
  (In source (nb_sources nb) ->
   Forall nonEmptyContent (nb_sources (editSourceTitle nb source newTitle now))) /\
  Forall nonEmptyContent (nb_sources (saveTitle nb editedTitle now)).
Proof.
  intros Hall. split; [|split].
  - rewrite Forall_forall in Hall |- *. intros x Hx.
    apply filter_In in Hx as [Hx _]. now apply Hall.
  - intros Hin. unfold editSourceTitle.
    destruct (editTitleClick source newTitle) as [u|] eqn:Hu; [|exact Hall].
    assert (Hc : src_content u = src_content source).
    { unfold editTitleClick in Hu. destruct newTitle; [|discriminate].
      destruct (_ && _ && _); [|discriminate]. now injection Hu as <-. }
    apply Forall_map. rewrite Forall_forall in Hall |- *.
    intros x Hx. destruct (String.eqb _ _); [|now apply Hall].
    unfold nonEmptyContent. rewrite Hc. now apply Hall.
  - unfold saveTitle. cbv zeta.
    destruct (_ && _); exact Hall.
Qed.

Lemma mutations_keep_content_invariant_witness :
  Forall nonEmptyContent
    (nb_sources (editSourceTitle notesNotebook notesSource (Some "New") 3)).
Proof.
  refine (proj1 (proj2 (mutations_keep_content_invariant notesNotebook "s1"
            notesSource (Some "New") "x" 3 _)) _).
  - constructor; [unfold nonEmptyContent; simpl; lia | constructor].
  - left. reflexivity.
Defined.

(** * Further properties of the source filter *)

(** Typing more of a query whose characters are all below 256 only
    narrows the displayed list: every source displayed for the query
    [q ++ r] is also displayed for [q], whatever its title and content. *)
Theorem displayedSources_refine {S : Type} (title content : S -> ustring)
    (sources : list S) (q r : ustring) (s : S) :
  latin1 (q ++ r)%list = true ->
  In s (displayedSources title content sources (q ++ r)%list) ->
  In s (displayedSources title content sources q).
Proof.
  intros Hl. rewrite latin1_app in Hl. apply andb_true_iff in Hl as [Hlq Hlr].
  unfold displayedSources. rewrite !filter_In. intros [Hin Hm]. split; [exact Hin|].
  unfold matchesQuery in *.
  destruct (U.trim q) as [|c t] eqn:Hq; [reflexivity|]. cbn [U.truthy negb].
  destruct (U.trim (q ++ r)%list) as [|c' t'] eqn:Hqr.
  - exfalso. apply U_trim_empty in Hqr. rewrite forallb_app in Hqr.
    apply andb_true_iff in Hqr as [Hqw _]. apply U_trim_empty in Hqw. congruence.
  - cbn [U.truthy negb] in Hm.
    rewrite (toLowerCase_latin1 (q ++ r)%list) in Hm
      by (rewrite latin1_app, Hlq; exact Hlr).
    rewrite map_app, <- (toLowerCase_latin1 q Hlq) in Hm.
    apply orb_true_iff in Hm. apply orb_true_iff.
    destruct Hm as [H | H]; [left | right];
      apply U_includes_spec in H as [a [b Hab]]; apply U_includes_spec;
      exists a, (map U.lower_unit r ++ b)%list; rewrite Hab;
      now rewrite <- !app_assoc.
Qed.

Lemma displayedSources_refine_witness :
  In catsSource
    (displayedSources srcTitle16 srcContent16 [catsSource; dogsSource] (ucodes "ca")).
Proof.
  apply (displayedSources_refine _ _ _ (ucodes "ca") (ucodes "ts"));
    [reflexivity | vm_compute; left; reflexivity].
Defined.

(** Beyond code units below 256 it is not so: the source titled
    "ΚΟΣΜΟΣ" is displayed for the query "ΚΟΣΜ" but not for its prefix
    "ΚΟΣ", which lower-cases with a final sigma. *)
Theorem displayedSources_final_sigma :
  displayedSources fst snd [kosmosSource] (kosQuery ++ [924%Z])%list = [kosmosSource] /\
  displayedSources fst snd [kosmosSource] kosQuery = [] /\
  U.toLowerCase kosQuery = [954; 959; 962]%Z /\
  U.toLowerCase (fst kosmosSource) = [954; 959; 963; 956; 959; 962]%Z.
Proof. vm_compute. auto. Qed.

(** * FlashcardsTab and QuizTab navigation *)

Lemma rem_wrap (a b : Z) : (0 < b)%Z -> (b <= a < 2 * b)%Z -> Z.rem a b = (a - b)%Z.
Proof.
  intros Hb Ha. rewrite Z.rem_mod_nonneg by lia. symmetry.
  apply Z.mod_unique with 1%Z; lia.
Qed.

(** On a non-empty deck, with the current card in range, [nextCard] and
    [prevCard] keep it in range, hide the answer, and undo each other. *)
Theorem flashcard_nav (len : Z) (st : FlashState) :
  (0 < len)%Z -> (0 <= fc_current st < len)%Z ->
  (0 <= fc_current (nextCard len st) < len)%Z /\
  fc_showAnswer (nextCard len st) = false /\
  (0 <= fc_current (prevCard len st) < len)%Z /\
  fc_showAnswer (prevCard len st) = false /\
  prevCard len (nextCard len st) = mkFlash (fc_current st) false /\
  nextCard len (prevCard len st) = mkFlash (fc_current st) false.
Proof.
  intros Hl [H0 H1]. unfold nextCard, prevCard.
  assert (Hg : (len >? 0)%Z = true) by (apply Z.gtb_lt; lia). rewrite !Hg. cbn.
  assert (Hn : (0 <= Z.rem (fc_current st + 1) len < len /\
                Z.rem (fc_current st + 1) len =
                  if (fc_current st + 1 <? len)%Z then (fc_current st + 1)%Z else 0%Z)%Z).
  { destruct (fc_current st + 1 <? len)%Z eqn:E.
    - apply Z.ltb_lt in E. rewrite Z.rem_small by lia. lia.
    - apply Z.ltb_ge in E. rewrite rem_wrap by lia. lia. }
  assert (Hp : (0 <= Z.rem (fc_current st - 1 + len) len < len /\
                Z.rem (fc_current st - 1 + len) len =
                  if (fc_current st =? 0)%Z then (len - 1)%Z else (fc_current st - 1)%Z)%Z).
  { destruct (fc_current st =? 0)%Z eqn:E.
    - apply Z.eqb_eq in E. rewrite Z.rem_small by lia. lia.
    - apply Z.eqb_neq in E. rewrite rem_wrap by lia. lia. }
  destruct Hn as [Hn1 Hn2]. destruct Hp as [Hp1 Hp2].
  repeat split; try lia; f_equal.
  - rewrite Hn2. destruct (fc_current st + 1 <? len)%Z eqn:E.
    + apply Z.ltb_lt in E. rewrite rem_wrap by lia. lia.
    + apply Z.ltb_ge in E. rewrite Z.rem_small by lia. lia.
  - rewrite Hp2. destruct (fc_current st =? 0)%Z eqn:E.
    + apply Z.eqb_eq in E. rewrite rem_wrap by lia. lia.
    + apply Z.eqb_neq in E. rewrite Z.rem_small by lia. lia.
Qed.

Lemma flashcard_nav_witness :
  prevCard 3 (nextCard 3 (mkFlash 2 true)) = mkFlash 2 false.
Proof. apply (flashcard_nav 3 (mkFlash 2 true)); simpl; lia. Defined.

(** Pressing Next [k] times moves the current card [k] places forward
    modulo the deck size; after [flashcards.length] presses the deck is back
    at the card it started from. *)
Theorem flashcard_cycle (len : Z) (st : FlashState) :
  (0 < len)%Z -> (0 <= fc_current st < len)%Z ->
  (forall k, fc_current (Nat.iter k (nextCard len) st) =
             ((fc_current st + Z.of_nat k) mod len)%Z) /\
  fc_current (Nat.iter (Z.to_nat len) (nextCard len) st) = fc_current st.
Proof.
  intros Hl Hc.
  assert (Hk : forall k, fc_current (Nat.iter k (nextCard len) st) =
                         ((fc_current st + Z.of_nat k) mod len)%Z).
  { induction k as [|k IH].
    - cbn [Nat.iter nat_rect]. rewrite Z.add_0_r, Z.mod_small by lia. reflexivity.
    - rewrite Nat.iter_succ. unfold nextCard at 1.
      assert (Hg : (len >? 0)%Z = true) by (apply Z.gtb_lt; lia). rewrite Hg.
      cbn [fc_current]. rewrite IH.
      rewrite Z.rem_mod_nonneg by (try apply Z.add_nonneg_nonneg; try apply Z.mod_pos_bound; lia).
      rewrite Z.add_mod_idemp_l by lia. f_equal. lia. }
  split; [exact Hk|]. rewrite Hk. rewrite Z2Nat.id by lia.
  replace (fc_current st + len)%Z with (fc_current st + 1 * len)%Z by lia.
  rewrite Z.mod_add by lia.
  apply Z.mod_small. exact Hc.
Qed.

Lemma flashcard_cycle_witness :
  fc_current (Nat.iter 4 (nextCard 4) (mkFlash 1 false)) = 1%Z.
Proof. apply (flashcard_cycle 4 (mkFlash 1 false)); simpl; lia. Defined.

(** Starting a quiz of [len >= 1] questions at the first one, the first
    [len - 1] presses of Next move one question forward each, the [len]-th
    press shows the results on the last question, and later presses keep
    it there. *)
Theorem quiz_progress (len : Z) :
  (1 <= len)%Z ->
  (forall k, (k < Z.to_nat len)%nat ->
     Nat.iter k (nextQuestion len) (mkQuizNav 0 false) = mkQuizNav (Z.of_nat k) false) /\
  (forall k, (Z.to_nat len <= k)%nat ->
     Nat.iter k (nextQuestion len) (mkQuizNav 0 false) = mkQuizNav (len - 1) true).
Proof.
  intros Hl.
  assert (Hb : forall k, (k < Z.to_nat len)%nat ->
     Nat.iter k (nextQuestion len) (mkQuizNav 0 false) = mkQuizNav (Z.of_nat k) false).
  { induction k as [|k IH]; intros Hk; [reflexivity|].
    rewrite Nat.iter_succ. rewrite IH by lia. unfold nextQuestion. cbn [qn_currentIndex qn_showResults].
    replace (Z.of_nat k <? len - 1)%Z with true by (symmetry; apply Z.ltb_lt; lia).
    f_equal. lia. }
  split; [exact Hb|].
  intros k Hk. replace k with (Z.to_nat len + (k - Z.to_nat len))%nat by lia.
  generalize (k - Z.to_nat len)%nat as d. induction d as [|d IH].
  - rewrite Nat.add_0_r.
    destruct (Z.to_nat len) as [|m] eqn:Em; [lia|]. rewrite Nat.iter_succ.
    rewrite Hb by lia. unfold nextQuestion. cbn [qn_currentIndex qn_showResults].
    replace (Z.of_nat m <? len - 1)%Z with false by (symmetry; apply Z.ltb_ge; lia).
    f_equal. lia.
  - rewrite Nat.add_succ_r, Nat.iter_succ. rewrite IH. unfold nextQuestion.
    cbn [qn_currentIndex qn_showResults].
    replace (len - 1 <? len - 1)%Z with false by (symmetry; apply Z.ltb_ge; lia).
    reflexivity.
Qed.

Lemma quiz_progress_witness :
  Nat.iter 5 (nextQuestion 5) (mkQuizNav 0 false) = mkQuizNav 4 true.
Proof. apply (proj2 (quiz_progress 5 ltac:(lia))). simpl. lia. Defined.

(** * QuizTab grading *)

Lemma lookup_record_same (answers : Answers) (id : string) (v : JSVal) :
  lookupAnswer (recordAnswer answers id v) id = v.
Proof. unfold recordAnswer. cbn. now rewrite String.eqb_refl. Qed.


(** A question with an options array and a numeric [correctIndex] is
    always graded wrong once an option has been picked: the radio buttons
    record the option's index (a number) while the expected answer is the
    option's text (a string, or undefined), and [===] never equates the
    two. *)
Theorem quiz_choice_never_correct (answers : Answers) (q : QuizQuestion)
    (opts : list string) (i k : Z) :
  q_options q = Some opts -> q_correctIndex q = Some i ->
  isCorrect (recordAnswer answers (q_id q) (JNum k)) q = false.
Proof.
  intros Ho Hi. unfold isCorrect. rewrite lookup_record_same.
  unfold correctAnswer. rewrite Ho, Hi. unfold indexArray.
  destruct (0 <=? i)%Z; [destruct (nth_error opts (Z.to_nat i))|]; reflexivity.
Qed.

Definition choiceQuestion : QuizQuestion :=
  mkQuizQuestion "q1" "2+2?" (Some ["3"; "4"]) (Some 1%Z) None.

Lemma quiz_choice_never_correct_witness :
  isCorrect (recordAnswer [] "q1" (JNum 1)) choiceQuestion = false.
Proof. apply (quiz_choice_never_correct [] choiceQuestion ["3"; "4"] 1 1); reflexivity. Defined.



(** * ChatTab *)

Lemma numToString_inj (n m : nat) : numToString n = numToString m -> n = m.
Proof.
  unfold numToString. intros H.
  apply (f_equal NilEmpty.uint_of_string) in H. rewrite !NilEmpty.usu in H.
  injection H as H. now apply Unsigned.to_uint_inj.
Qed.

Lemma ids_below_mono (b b' : nat) (ms : list ChatMessage) :
  (b <= b')%nat -> ids_below b ms -> ids_below b' ms.
Proof.
  intros Hb. unfold ids_below. apply Forall_impl. intros m [k [Hk Hlt]]. exists k. split; [exact Hk | lia].
Qed.

Lemma ids_below_fresh (b t : nat) (ms : list ChatMessage) :
  ids_below b ms -> (b <= t)%nat -> ~ In (numToString t) (map msg_id ms).
Proof.
  intros Hb Ht Hin. apply in_map_iff in Hin as [m [Hm Hin]].
  unfold ids_below in Hb. rewrite Forall_forall in Hb.
  destruct (Hb m Hin) as [k [Hk Hlt]].
  rewrite Hk in Hm. apply numToString_inj in Hm. lia.
Qed.

Lemma typeAndSend_ids (st : ChatState) (b : nat) input t1 t2 answer :
  ids_below b (messages st) -> NoDup (map msg_id (messages st)) ->
  (b <= t1 <= t2)%nat ->
  let st' := typeAndSend st input t1 t2 answer in
  ids_below (t2 + 2) (messages st') /\ NoDup (map msg_id (messages st')).
Proof.
  intros Hb Hnd Ht st'. subst st'. unfold typeAndSend, sendMessage. cbv zeta.
  cbn [chat_input chat_loading learningGuide messages].
  destruct (negb (JS.truthy (JS.trim input)) || chat_loading st).
  - split; [apply (ids_below_mono b); [lia | exact Hb] | exact Hnd].
  - assert (Hb' : ids_below (t2 + 2) (messages st))
      by (apply (ids_below_mono b); [lia | exact Hb]).
    destruct answer as [msg | [text cits]]; cbn [fst messages]; rewrite map_app.
    + split.
      * apply Forall_app. split; [exact Hb'|].
        repeat constructor. exists t1. split; [reflexivity | lia].
      * apply NoDup_app; [exact Hnd | repeat constructor; simpl; tauto|].
        intros x Hx [<- | []]. exact (ids_below_fresh b t1 _ Hb (proj1 Ht) Hx).
    + split.
      * apply Forall_app. split; [exact Hb'|].
        constructor; [exists t1; split; [reflexivity | lia]|].
        constructor; [exists (t2 + 1)%nat; split; [reflexivity | lia] | constructor].
      * apply NoDup_app; [exact Hnd | |].
        -- cbn [map msg_id]. constructor; [|constructor; [simpl; tauto | constructor]].
           intros [H | []]. apply numToString_inj in H. lia.
        -- intros x Hx [<- | [<- | []]].
           ++ exact (ids_below_fresh b t1 _ Hb (proj1 Ht) Hx).
           ++ refine (ids_below_fresh b (t2 + 1) _ Hb _ Hx). lia.
Qed.

(** Over a conversation in which each send reads the clock at least 2 ms
    after the previous reply was stamped, the chat messages keep distinct
    ids: the user's message takes [Date.now()] at the send, the reply
    [Date.now() + 1] when it arrives. *)
Theorem chat_ids_unique (st : ChatState) (b : nat) (turns : list Turn) :
  ids_below b (messages st) -> NoDup (map msg_id (messages st)) ->
  clock_gap b turns ->
  NoDup (map msg_id (messages (converse st turns))).
Proof.
  revert st b. induction turns as [|[[[input t1] t2] answer] turns IH];
    intros st b Hb Hnd Hc; [exact Hnd|].
  destruct Hc as [Ht Hc]. cbn [converse].
  destruct (typeAndSend_ids st b input t1 t2 answer Hb Hnd Ht) as [Hb' Hnd'].
  exact (IH _ (t2 + 2)%nat Hb' Hnd' Hc).
Qed.

Lemma chat_ids_unique_witness :
  NoDup (map msg_id (messages (converse (mkChat [] "" false false)
    [("hi", 1, 3, inr ("a", None)); ("more", 5, 9, inl "e");
     ("again", 11, 12, inr ("b", None))]%nat))).
Proof.
  apply (chat_ids_unique _ 0); [constructor | constructor |].
  cbn. lia.
Defined.

(** A send 1 ms after the previous reply was stamped reuses its id: the
    reply to "hi" read the clock at 1 and took id "2"; the next message,
    sent at 2, also gets id "2". *)
Theorem chat_ids_collide :
  map msg_id (messages (converse (mkChat [] "" false false)
    [("hi", 1, 1, inr ("a", None)); ("more", 2, 2, inl "e")]%nat)) =
  ["1"; "2"; "2"].
Proof. vm_compute. reflexivity. Qed.



(** * services/ai: [postJson] *)

(** [postJson] resolves exactly when the fetch succeeds with an OK status, the
    body parses, and the parsed object has no [error] field; a non-OK status
    is reported with a message naming the url and the status code. *)
Theorem postJson_outcome (url : string) (fetched : string + Response) :
  (forall data, postJson url fetched = inr data <->
     exists res, fetched = inr res /\ res_ok res = true /\
       res_json res = inr data /\ jsonField data "error" = None) /\
  (forall res, fetched = inr res -> res_ok res = false ->
     exists msg, postJson url fetched = inl msg /\
       JS.includes msg url = true /\
       JS.includes msg (numToString (res_status res)) = true).
Proof.
  split.
  - intros data. unfold postJson. split.
    + destruct fetched as [m | res]; [discriminate|].
      destruct (res_ok res) eqn:Ho; cbn [negb]; [|discriminate].
      destruct (res_json res) as [m | d] eqn:Hj; [discriminate|].
      destruct (jsonField d "error") eqn:He; [discriminate|].
      intros H. injection H as <-. now exists res.
    + intros [res [-> [Ho [Hj He]]]]. rewrite Ho, Hj, He. reflexivity.
  - intros res -> Ho. unfold postJson. rewrite Ho. cbn [negb].
    eexists. split; [reflexivity|]. split.
    + apply (includes_app "Request to ").
    + replace ("Request to " ++ url ++ " failed with status " ++ numToString (res_status res))
        with (("Request to " ++ url ++ " failed with status ") ++ numToString (res_status res) ++ "")
        by (now rewrite append_empty_r, !append_assoc).
      apply includes_app.
Qed.

Lemma postJson_outcome_witness :
  exists msg, postJson "/api/ai/answer" (inr (mkResponse false 500 (inr []))) = inl msg /\
    JS.includes msg "/api/ai/answer" = true.
Proof.
  destruct (proj2 (postJson_outcome "/api/ai/answer" (inr (mkResponse false 500 (inr []))))
              (mkResponse false 500 (inr [])) eq_refl eq_refl) as [msg [H1 [H2 _]]].
  exists msg. split; assumption.
Defined.
